(** * Suite scheduler events: a shallow embedding of [base_event.py]

    The module [site_utils/suite_scheduler/base_event.py] holds three
    formatting helpers ([SectionName], [HonoredSection], [BuildName]) and the
    class [BaseEvent], whose [Handle] method dispatches the tasks of an event
    and whose [_LatestLaunchControlBuilds] method resolves the latest Launch
    Control builds of a board.

    Python strings are [string], the task set is a [gset], dictionaries are
    [gmap]s, and code that calls out to collaborators (tasks, devservers,
    logging) is written in a state-and-exception monad whose state carries
    the event object, the state of the outside world and the sequence of
    calls made so far. *)

From Stdlib Require Import Ascii.
From stdpp Require Import base gmap sets list strings pretty.

(* [set_solver] clears hypotheses by name and says so when one is gone. *)
Set Warnings "-clear-no-such-hyp".

Local Open Scope string_scope.
Local Open Scope list_scope.
Local Open Scope nat_scope.

(** ** Python values reaching the [%] operator *)

Module Py.

(** The arguments the helpers are called with are strings and integers. *)
Inductive value :=
  | Str (s : string)
  | Int (z : Z).

(** [str(v)]: a string is itself, an integer prints in decimal with a
    leading minus sign when negative. *)
Definition str (v : value) : string :=
  match v with
  | Str s => s
  | Int z => pretty z
  end.

(** [fmt % args] for format strings whose only directives are [%s] and
    [%%].  A directive without an argument, an argument without a directive,
    a lone trailing [%] and any other conversion raise in Python: [None]. *)
Fixpoint format (fmt : string) (args : list value) : option string :=
  match fmt with
  | EmptyString =>
      match args with
      | [] => Some EmptyString
      | _ :: _ => None
      end
  | String c rest =>
      if Ascii.eqb c "%"%char then
        match rest with
        | EmptyString => None
        | String d rest' =>
            if Ascii.eqb d "s"%char then
              match args with
              | [] => None
              | v :: args' => (λ r, str v +:+ r) <$> format rest' args'
              end
            else if Ascii.eqb d "%"%char then String "%"%char <$> format rest' args
            else None
        end
      else String c <$> format rest args
  end.

(** [s.endswith(suffix)]: the last [len(suffix)] characters of [s] are
    [suffix]. *)
Definition endswith (s suffix : string) : bool :=
  let n := String.length s in
  let m := String.length suffix in
  if decide (m ≤ n)%nat
  then bool_decide (String.substring (n - m) m s = suffix)
  else false.

End Py.

(** ** Module-level constants and helpers *)

Definition _SECTION_SUFFIX : string := "_params".

Definition _LATEST_LAUNCH_CONTROL_BUILD_FMT : string := "%s/%s/LATEST".

Definition SectionName (keyword : string) : string :=
  keyword +:+ _SECTION_SUFFIX.

Definition HonoredSection (section : string) : bool :=
  Py.endswith section _SECTION_SUFFIX.

Definition BuildName (board type milestone manifest : Py.value) : option string :=
  Py.format "%s-%s/R%s-%s" [board; type; milestone; manifest].

(** ** Outcomes of calls *)

(** The exceptions that can leave the code of this module: the ones Python
    raises itself and whatever a collaborator raises. *)
Inductive exn :=
  | KeyError
  | TypeError
  | NotImplementedError
  | External (what : string).

Inductive outcome (A : Type) :=
  | Returned (a : A)
  | Raised (e : exn).
Arguments Returned {A} a.
Arguments Raised {A} e.

(** A branch-to-builds dictionary, as passed to [Handle]. *)
Abbreviation branch_builds_t := (gmap string (list string)).

(** ** Collaborators

    The task type, the scheduler, the [ManifestVersions] handle and the
    devservers live in other modules.  Their operations act on a state of
    the outside world (hosts, lab, network, clock) and may raise. *)

(** The types this module receives from elsewhere.  Tasks are compared by
    their own [__eq__] and [__hash__], so a value of [Task] stands for a
    task up to that logical equality. *)
Class Externals := {
  Task : Type;
  Task_eq_dec :: EqDecision Task;
  Task_countable :: Countable Task;
  Scheduler : Type;
  ManifestVersions : Type;
  DevServer : Type;
  World : Type
}.

Class TaskContract `{Externals} := {
  launch_control_branches : Task → list string;
  launch_control_targets : Task → list string;
  AvailableHosts : Task → Scheduler → string → World → outcome bool * World;
  ShouldHaveAvailableHosts : Task → World → outcome bool * World;
  Run : Task → Scheduler → branch_builds_t → string → bool →
        ManifestVersions → option (list string) → World → outcome bool * World
}.

(** [dev_server.AndroidBuildServer]: [random()] picks a devserver,
    [translate] resolves a build name on it. *)
Class AndroidBuildServer `{Externals} := {
  random : World → outcome DevServer * World;
  translate : DevServer → string → World → outcome string * World
}.

(** [server.utils]: the board alias table and the parser of Launch Control
    targets, which returns the pair (build target, build type). *)
Class Utils := {
  ANDROID_BOARD_TO_TARGET_MAP : gmap string string;
  parse_launch_control_target : string → option string * option string
}.

Section BaseEvent.

Context `{Externals, !TaskContract, !AndroidBuildServer, !Utils}.

(** *** The event object *)

Record BaseEvent := {
  _keyword : string;
  _mv : ManifestVersions;
  _tasks : gset Task;
  _always_handle : bool
}.

Definition __init__ (keyword : string) (manifest_versions : ManifestVersions)
    (always_handle : bool) : BaseEvent :=
  {| _keyword := keyword;
     _mv := manifest_versions;
     _tasks := ∅;
     _always_handle := always_handle |}.

Definition keyword (self : BaseEvent) : string := _keyword self.

Definition tasks (self : BaseEvent) : gset Task := _tasks self.

(** Iterating a Python set visits each member once, in an order the
    language leaves open; [elements] is one such order. *)
Definition as_list (s : gset Task) : list Task := elements s.

(** [branches.setdefault(branch, []).extend(targets)] *)
Definition setdefault_extend (targets : list string)
    (branches : gmap string (list string)) (branch : string)
    : gmap string (list string) :=
  <[branch := (default [] (branches !! branch) ++ targets)%list]> branches.

Definition launch_control_branches_targets (self : BaseEvent)
    : gmap string (list string) :=
  foldl (λ branches task,
           foldl (setdefault_extend (launch_control_targets task))
                 branches (launch_control_branches task))
        ∅ (as_list (_tasks self)).

(** The [tasks] setter: [self._tasks = set(iterable_of_tasks)]. *)
Definition set_tasks (self : BaseEvent) (iterable_of_tasks : list Task)
    : BaseEvent :=
  {| _keyword := _keyword self;
     _mv := _mv self;
     _tasks := list_to_set iterable_of_tasks;
     _always_handle := _always_handle self |}.

(** [Merge] goes through the setter, which iterates over the other event's
    set and builds a new one. *)
Definition Merge (self to_merge : BaseEvent) : BaseEvent :=
  let self1 := set_tasks self (as_list (tasks to_merge)) in
  {| _keyword := _keyword self1;
     _mv := _mv to_merge;
     _tasks := _tasks self1;
     _always_handle := _always_handle to_merge |}.

Definition ShouldHandle (self : BaseEvent) : bool := _always_handle self.

(** *** Calls made by an event *)

Inductive call :=
  | LogInfo (keyword board : string)
  | LogWarning (task : Task) (board : string)
  | CallAvailableHosts (task : Task) (scheduler : Scheduler) (board : string)
      (r : outcome bool)
  | CallShouldHaveAvailableHosts (task : Task) (r : outcome bool)
  | CallRun (task : Task) (scheduler : Scheduler)
      (branch_builds : branch_builds_t) (board : string) (force : bool)
      (mv : ManifestVersions) (launch_control_builds : option (list string))
      (r : outcome bool)
  | CallRandom (r : outcome DevServer)
  | CallTranslate (devserver : DevServer) (build : string) (r : outcome string).

(** *** The monad of methods: the event, the world, the calls so far *)

Record state := {
  self : BaseEvent;
  world : World;
  calls : list call
}.

Definition M (A : Type) : Type := state → outcome A * state.

Definition ret {A} (a : A) : M A := λ s, (Returned a, s).

Definition bind {A B} (c : M A) (k : A → M B) : M B :=
  λ s, match c s with
       | (Returned a, s') => k a s'
       | (Raised e, s') => (Raised e, s')
       end.

Definition raise {A} (e : exn) : M A := λ s, (Raised e, s).

Definition gets {A} (f : BaseEvent → A) : M A := λ s, (Returned (f (self s)), s).

(** A call to a collaborator: it changes the world and is recorded together
    with what it returned or raised. *)
Definition external {A} (op : World → outcome A * World) (record : outcome A → call)
    : M A :=
  λ s, let '(r, w) := op (world s) in
       (r, {| self := self s; world := w; calls := (calls s ++ [record r])%list |}).

Definition log (c : call) : M unit :=
  λ s, (Returned tt, {| self := self s; world := world s; calls := (calls s ++ [c])%list |}).

Notation "x <- c ;; k" := (bind c (λ x, k))
  (at level 100, c at next level, right associativity).
Notation "c ;;; k" := (bind c (λ _, k))
  (at level 100, right associativity).

(** [self._tasks.remove(task)] raises [KeyError] on a task that is not a
    member. *)
Definition tasks_remove (task : Task) : M unit :=
  λ s, if decide (task ∈ _tasks (self s))
       then (Returned tt,
             {| self := {| _keyword := _keyword (self s);
                           _mv := _mv (self s);
                           _tasks := _tasks (self s) ∖ {[task]};
                           _always_handle := _always_handle (self s) |};
                world := world s;
                calls := calls s |})
       else (Raised KeyError, s).

(** *** Methods that subclasses implement or override *)

Definition Prepare : M unit := raise NotImplementedError.

Definition GetBranchBuildsForBoard (board : string) : M branch_builds_t :=
  raise NotImplementedError.

Definition GetLaunchControlBuildsForBoard (board : string) : M (list string) :=
  raise NotImplementedError.

Definition UpdateCriteria : M unit := raise NotImplementedError.

(** [FilterTasks] is the one overridable method that [Handle] calls.  An
    override reads the event and the world (the clock, say) and hands back a
    list of tasks; it does not get to change the event. *)
Class EventClass := {
  FilterTasks : BaseEvent → World → outcome (list Task) * World
}.

(** The method as [BaseEvent] defines it: [list(self.tasks)]. *)
Definition BaseEvent_FilterTasks (self : BaseEvent) (w : World)
    : outcome (list Task) * World :=
  (Returned (as_list (tasks self)), w).

Definition call_FilterTasks `{!EventClass} : M (list Task) :=
  λ s, let '(r, w) := FilterTasks (self s) (world s) in
       (r, {| self := self s; world := w; calls := calls s |}).

(** *** [Handle] *)

Section Handle.

Context `{!EventClass}.
Variable scheduler : Scheduler.
Variable branch_builds : branch_builds_t.
Variable board : string.
Variable force : bool.
Variable launch_control_builds : option (list string).

(** [list(self.tasks) if force else self.FilterTasks()] *)
Definition Handle_tasks : M (list Task) :=
  if force then gets (λ self, as_list (tasks self)) else call_FilterTasks.

(** The body of the [for] loop, for one task. *)
Definition Handle_body (task : Task) : M unit :=
  available <- external (AvailableHosts task scheduler board)
                        (CallAvailableHosts task scheduler board) ;;
  if available : bool then
    mv <- gets _mv ;;
    keep <- external (Run task scheduler branch_builds board force mv
                          launch_control_builds)
                     (CallRun task scheduler branch_builds board force mv
                              launch_control_builds) ;;
    if negb keep then tasks_remove task else ret tt
  else
    should <- external (ShouldHaveAvailableHosts task)
                       (CallShouldHaveAvailableHosts task) ;;
    if should : bool then log (LogWarning task board) else ret tt.

Fixpoint Handle_loop (tasks : list Task) : M unit :=
  match tasks with
  | [] => ret tt
  | task :: rest => Handle_body task ;;; Handle_loop rest
  end.

Definition Handle : M unit :=
  kw <- gets keyword ;;
  log (LogInfo kw board) ;;;
  tasks <- Handle_tasks ;;
  Handle_loop tasks.

End Handle.

(** *** [_LatestLaunchControlBuilds] *)

(** The inner loop: one [translate] per matching target, results appended
    to [builds]. *)
Fixpoint translate_targets (devserver : DevServer) (branch : string)
    (match_targets : list string) (builds : list string) : M (list string) :=
  match match_targets with
  | [] => ret builds
  | target :: rest =>
      match Py.format _LATEST_LAUNCH_CONTROL_BUILD_FMT
                      [Py.Str branch; Py.Str target] with
      | None => raise TypeError
      | Some latest_build =>
          b <- external (translate devserver latest_build)
                        (CallTranslate devserver latest_build) ;;
          translate_targets devserver branch rest (builds ++ [b])%list
      end
  end.

(** The outer loop over the items of the branch-to-targets dictionary;
    [match_targets] keeps the targets [t] for which
    [board == utils.parse_launch_control_target(t)[0]]. *)
Fixpoint translate_branches (board : string) (devserver : DevServer)
    (items : list (string * list string)) (builds : list string)
    : M (list string) :=
  match items with
  | [] => ret builds
  | (branch, targets) :: rest =>
      let match_targets :=
        filter (λ t, Some board = (parse_launch_control_target t).1) targets in
      builds' <- translate_targets devserver branch match_targets builds ;;
      translate_branches board devserver rest builds'
  end.

(** The items of the dictionary are walked in the order of [map_to_list],
    one of the orders the language allows; what is proved of the walk
    across branches does not depend on it. *)
Definition _LatestLaunchControlBuilds (board : string) : M (list string) :=
  let board := default board (ANDROID_BOARD_TO_TARGET_MAP !! board) in
  devserver <- external random CallRandom ;;
  branches <- gets launch_control_branches_targets ;;
  translate_branches board devserver (map_to_list branches) [].

(** *** Reading the record of calls *)

(** The task a call evicts: a [Run] that returned false. *)
Definition evicted (c : call) : option Task :=
  match c with
  | CallRun task _ _ _ _ _ _ (Returned false) => Some task
  | _ => None
  end.

Definition evictions (cs : list call) : gset Task :=
  list_to_set (omap evicted cs).

(** The build names asked of the devservers. *)
Definition queried (c : call) : option string :=
  match c with
  | CallTranslate _ build _ => Some build
  | _ => None
  end.

Definition queries (cs : list call) : list string := omap queried cs.

(** The tasks whose hosts were checked and the tasks that were run, in the
    order of the calls. *)
Definition checked (c : call) : option Task :=
  match c with
  | CallAvailableHosts task _ _ _ => Some task
  | _ => None
  end.

Definition host_checks (cs : list call) : list Task := omap checked cs.

Definition ran (c : call) : option Task :=
  match c with
  | CallRun task _ _ _ _ _ _ _ => Some task
  | _ => None
  end.

Definition runs (cs : list call) : list Task := omap ran cs.

(** The exception a call to a collaborator ended with, if it raised. *)
Definition raised (c : call) : option exn :=
  match c with
  | CallAvailableHosts _ _ _ (Raised e)
  | CallShouldHaveAvailableHosts _ (Raised e)
  | CallRun _ _ _ _ _ _ _ (Raised e)
  | CallRandom (Raised e)
  | CallTranslate _ _ (Raised e) => Some e
  | _ => None
  end.

(** The task a call is about: one of its own operations, or the warning
    that names it. *)
Definition about (c : call) : option Task :=
  match c with
  | LogWarning task _
  | CallAvailableHosts task _ _ _
  | CallShouldHaveAvailableHosts task _
  | CallRun task _ _ _ _ _ _ _ => Some task
  | _ => None
  end.

(** What a stretch of calls shows about a task each of whose host checks in
    the stretch returned false: it was not run; and when moreover it said
    each time that it needs no hosts, the only calls about it are those
    checks and those questions. *)
Definition skipped (scheduler : Scheduler) (board : string) (t : Task)
    (new : list call) : Prop :=
  (∀ sch b o, CallAvailableHosts t sch b o ∈ new → o = Returned false) →
  (t ∉ runs new) ∧
  ((∀ o, CallShouldHaveAvailableHosts t o ∈ new → o = Returned false) →
   ∀ c, c ∈ new → about c = Some t →
        c = CallAvailableHosts t scheduler board (Returned false) ∨
        c = CallShouldHaveAvailableHosts t (Returned false)).

(** The queries the specification asks of the lookup: for every branch of
    the branch-to-targets view, one key [<branch>/<target>/LATEST] for each
    target whose board component is the translated board. *)
Definition spec_latest_queries (board : string) (self : BaseEvent)
    : list string :=
  '(branch, targets) ← map_to_list (launch_control_branches_targets self);
  (λ target, branch +:+ "/" +:+ target +:+ "/LATEST")
    <$> filter (λ t, Some board = (parse_launch_control_target t).1) targets.

End BaseEvent.

(** ** A small lab to run the methods in

    Tasks are numbered.  Tasks below 10 find hosts; of the others only
    task 10 needs them.  Task 0 asks to be kept, tasks 1 and 2 are one-shot,
    task 3 fails in [Run].  Tasks 1 and 2 follow the Launch Control branch
    [git_mnc_release], for the targets [shamu-userdebug] and [shamu-eng].
    The world counts the suites that were run. *)

Module Lab.

#[export] Instance externals : Externals := {|
  Task := nat;
  Scheduler := unit;
  ManifestVersions := unit;
  DevServer := nat;
  World := nat
|}.

Definition lab_branches (t : nat) : list string :=
  match t with
  | 1%nat | 2%nat => ["git_mnc_release"]
  | _ => []
  end.

Definition lab_targets (t : nat) : list string :=
  match t with
  | 2%nat => ["shamu-eng"]
  | 1%nat => ["shamu-userdebug"]
  | _ => []
  end.

Definition lab_Run (t : nat) (w : nat) : outcome bool * nat :=
  match t with
  | 1%nat | 2%nat => (Returned false, S w)
  | 3%nat => (Raised (External "RPC failure"), w)
  | _ => (Returned true, S w)
  end.

#[export] Instance contract : TaskContract := {|
  launch_control_branches := lab_branches;
  launch_control_targets := lab_targets;
  AvailableHosts := λ t _ _ w, (Returned (bool_decide (t < 10)%nat), w);
  ShouldHaveAvailableHosts := λ t w, (Returned (bool_decide (t = 10%nat)), w);
  Run := λ t _ _ _ _ _ _ w, lab_Run t w
|}.

#[export] Instance build_server : AndroidBuildServer := {|
  random := λ w, (Returned 7%nat, w);
  translate := λ _ build w, (Returned ("resolved:" +:+ build), w)
|}.

(** Splits a string at its last hyphen. *)
Fixpoint split_last_hyphen (s : string) : option (string * string) :=
  match s with
  | EmptyString => None
  | String c rest =>
      match split_last_hyphen rest with
      | Some (a, b) => Some (String c a, b)
      | None => if Ascii.eqb c "-"%char then Some (EmptyString, rest) else None
      end
  end.

(** Modelled from the spec: [utils.parse_launch_control_target] is not among
    the sources.  A target combines a board name and a build flavor, as in
    [shamu-eng]; the board component is what precedes the last hyphen, and a
    string that is not of this shape has none. *)
Definition lab_parse (target : string) : option string * option string :=
  match split_last_hyphen target with
  | Some (String c a, String d b) => (Some (String c a), Some (String d b))
  | _ => (None, None)
  end.

(** Modelled from the spec: [utils.ANDROID_BOARD_TO_TARGET_MAP] is not among
    the sources.  It is a table from board names to target names; boards
    without an entry, such as [shamu] here, pass through unchanged. *)
#[export] Instance utils : Utils := {|
  ANDROID_BOARD_TO_TARGET_MAP := {[ "aliased_board" := "its_target" ]};
  parse_launch_control_target := lab_parse
|}.

(** The event class that does not override [FilterTasks]. *)
#[export] Instance base_class : EventClass := {|
  FilterTasks := BaseEvent_FilterTasks
|}.

(** An event class whose [FilterTasks] narrows the candidates to none. *)
Definition idle_class : EventClass := {|
  FilterTasks := λ _ w, (Returned [], w)
|}.

Definition event (ts : list nat) : BaseEvent :=
  set_tasks (__init__ "nightly" tt false) ts.

Definition start (ts : list nat) : state :=
  {| self := event ts; world := 0%nat; calls := [] |}.

(** [Handle] and the build lookup on board [shamu], from [start ts]. *)
Definition handle (cls : EventClass) (force : bool) (ts : list nat)
    : outcome unit * state :=
  @Handle _ _ cls tt ∅ "shamu" force None (start ts).

Definition latest (ts : list nat) : outcome (list string) * state :=
  _LatestLaunchControlBuilds "shamu" (start ts).

(** The loop of [Handle] on board [shamu], and the state it starts in. *)
Definition loop (force : bool) (l : list nat) (s : state)
    : outcome unit * state :=
  @Handle_loop _ _ tt ∅ "shamu" force None l s.

Definition opened (ts : list nat) : state :=
  {| self := event ts; world := 0%nat; calls := [LogInfo "nightly" "shamu"] |}.

(** A lab in which nothing raises: task 3 is a one-shot task like the
    others. *)
Definition calm_contract : TaskContract := {|
  launch_control_branches := lab_branches;
  launch_control_targets := lab_targets;
  AvailableHosts := λ t _ _ w, (Returned (bool_decide (t < 10)%nat), w);
  ShouldHaveAvailableHosts := λ t w, (Returned (bool_decide (t = 10%nat)), w);
  Run := λ t _ _ _ _ _ _ w, (Returned (bool_decide (t = 0%nat)), S w)
|}.

(** A devserver pool whose members cannot be reached. *)
Definition broken_server : AndroidBuildServer := {|
  random := λ w, (Returned 7%nat, w);
  translate := λ _ _ w, (Raised (External "unreachable"), w)
|}.

(** An event class whose [FilterTasks] names task 1 twice. *)
Definition stutter_class : EventClass := {|
  FilterTasks := λ _ w, (Returned [1; 1]%nat, w)
|}.

End Lab.

(** ** The removal property, read to the letter

    Whenever a task's [Run] returned false during a call of [Handle] that
    returned, the task is gone and every other member of the set is still
    there. *)
Definition evicted_alone `{Externals, !TaskContract, !EventClass}
    (scheduler : Scheduler) (branch_builds : branch_builds_t) (board : string)
    (force : bool) (launch_control_builds : option (list string))
    (s : state) : Prop :=
  ∀ s' t,
    Handle scheduler branch_builds board force launch_control_builds s
      = (Returned tt, s') →
    t ∈ evictions (drop (length (calls s)) (calls s')) →
    (t ∉ tasks (self s')) ∧
    ∀ u, u ≠ t → u ∈ tasks (self s) → u ∈ tasks (self s').

(** * Proof steps used more than once *)

(** Names the calls a step added and leaves the set algebra to
    [set_solver]. *)
Ltac added_calls :=
  eexists; split; [by rewrite <- ?app_assoc | simpl; set_solver].

(** Writes the build name passed to [translate] as the literal it is. *)
Tactic Notation "spell_query" constr(lit) :=
  match goal with
  | |- context [@translate _ _ _ ?q _] =>
      change q with lit
  end.

(** * Properties *)

(** ** Strings *)

Lemma append_cons (c : ascii) (a b : string) :
  String c a +:+ b = String c (a +:+ b).
Proof. reflexivity. Qed.

Lemma append_empty_r (s : string) : s +:+ "" = s.
Proof. induction s as [|c s IH]; [done | by rewrite append_cons, IH]. Qed.

Lemma append_assoc (a b c : string) : (a +:+ b) +:+ c = a +:+ (b +:+ c).
Proof. induction a as [|x a IH]; [done | by rewrite !append_cons, IH]. Qed.

Lemma length_append (a b : string) :
  String.length (a +:+ b) = String.length a + String.length b.
Proof. induction a as [|x a IH]; [done | by rewrite append_cons; simpl; rewrite IH]. Qed.

Lemma substring_all (s : string) : String.substring 0 (String.length s) s = s.
Proof. induction s as [|c s IH]; simpl; [done | by f_equal]. Qed.

Lemma substring_skip_prefix (p q : string) :
  String.substring (String.length p) (String.length q) (p +:+ q) = q.
Proof.
  induction p as [|c p IH]; [apply substring_all | by rewrite append_cons].
Qed.

Lemma substring_split (s : string) (k : nat) :
  k ≤ String.length s →
  s = String.substring 0 k s +:+ String.substring k (String.length s - k) s.
Proof.
  revert k. induction s as [|c s IH]; intros k Hk; simpl in *.
  - destruct k; [done | lia].
  - destruct k as [|k]; simpl.
    + by rewrite substring_all.
    + rewrite append_cons. f_equal. apply IH. lia.
Qed.

Lemma endswith_spec (s suffix : string) :
  Py.endswith s suffix = true ↔ ∃ p, s = p +:+ suffix.
Proof.
  unfold Py.endswith. split.
  - case_decide as Hle; [|done].
    intros Heq%bool_decide_eq_true.
    exists (String.substring 0 (String.length s - String.length suffix) s).
    pose proof (substring_split s (String.length s - String.length suffix)) as Hs.
    replace (String.length s - (String.length s - String.length suffix))
      with (String.length suffix) in Hs by lia.
    rewrite Heq in Hs. apply Hs. lia.
  - intros [p ->]. rewrite length_append.
    rewrite decide_True by lia.
    apply bool_decide_eq_true.
    replace (String.length p + String.length suffix - String.length suffix)
      with (String.length p) by lia.
    apply substring_skip_prefix.
Qed.

(** C9. [SectionName] appends the suffix [_params] to any keyword, and
    [HonoredSection] holds of exactly the strings that end with that suffix;
    so [nightly] gives [nightly_params], which is honored, while [nightly]
    itself is not. *)
Theorem SectionName_HonoredSection :
  (∀ k, SectionName k = k +:+ "_params") ∧
  (∀ s, HonoredSection s = true ↔ ∃ p, s = p +:+ "_params") ∧
  SectionName "nightly" = "nightly_params" ∧
  HonoredSection "nightly_params" = true ∧
  HonoredSection "nightly" = false.
Proof.
  split; [done|]. split; [|by vm_compute].
  intros s. apply endswith_spec.
Qed.

(** C8. [BuildName] returns [<board>-<type>/R<milestone>-<manifest>] for
    all arguments, whatever they are, and gives
    [x86-alex-release/R20-2015.0.0] on the documented input. *)
Theorem BuildName_format :
  (∀ board type milestone manifest,
     BuildName board type milestone manifest
     = Some (Py.str board +:+ "-" +:+ Py.str type +:+ "/R" +:+
             Py.str milestone +:+ "-" +:+ Py.str manifest)) ∧
  BuildName (Py.Str "x86-alex") (Py.Str "release") (Py.Int 20) (Py.Str "2015.0.0")
  = Some "x86-alex-release/R20-2015.0.0".
Proof.
  split; [|by vm_compute].
  intros board type milestone manifest.
  unfold BuildName. simpl. by rewrite append_empty_r.
Qed.

(** ** The event object *)

Section EventProps.

Context {ext : Externals}.

Lemma size_list_to_set_remove_dups (l : list Task) :
  size (list_to_set (C := gset Task) l) = length (remove_dups l).
Proof.
  rewrite <- (size_list_to_set (C := gset Task) (remove_dups l))
    by apply NoDup_remove_dups.
  f_equal. apply set_eq. intros x.
  by rewrite !elem_of_list_to_set, elem_of_remove_dups.
Qed.

Lemma tasks_Merge (self0 to_merge : BaseEvent) :
  tasks (Merge self0 to_merge) = tasks to_merge.
Proof. unfold Merge, set_tasks, tasks, as_list. simpl. apply list_to_set_elements_L. Qed.

(** C2. After [self.Merge(other)] the keyword of [self] is what it was, and
    its task set, [ManifestVersions] handle and [always_handle] flag are
    those of [other], whatever [self] held before. *)
Theorem Merge_takes_mutable_fields (self0 other : BaseEvent) :
  keyword (Merge self0 other) = keyword self0 ∧
  tasks (Merge self0 other) = tasks other ∧
  _mv (Merge self0 other) = _mv other ∧
  _always_handle (Merge self0 other) = _always_handle other.
Proof. split_and!; [done | apply tasks_Merge | done | done]. Qed.

(** C4. The set stored by the [tasks] setter lists no task twice, holds
    exactly the tasks of the iterable, and has as many members as the
    iterable has distinct tasks; the same is true of the empty set a new
    event starts with and of the set an event holds after [Merge]. *)
Theorem tasks_deduplicated :
  (∀ (e : BaseEvent) (l : list Task),
     NoDup (as_list (tasks (set_tasks e l))) ∧
     (∀ t, t ∈ tasks (set_tasks e l) ↔ t ∈ l) ∧
     size (tasks (set_tasks e l)) = length (remove_dups l)) ∧
  (∀ k mv a,
     NoDup (as_list (tasks (__init__ k mv a))) ∧
     size (tasks (__init__ k mv a)) = 0) ∧
  (∀ e o : BaseEvent,
     NoDup (as_list (tasks (Merge e o))) ∧
     (∀ t, t ∈ tasks (Merge e o) ↔ t ∈ as_list (tasks o)) ∧
     size (tasks (Merge e o)) = length (remove_dups (as_list (tasks o)))).
Proof.
  split_and!.
  - intros e l. split_and!.
    + apply NoDup_elements.
    + intros t. unfold set_tasks, tasks. simpl. apply elem_of_list_to_set.
    + apply size_list_to_set_remove_dups.
  - intros k mv a. split; [apply NoDup_elements | done].
  - intros e o. split_and!.
    + apply NoDup_elements.
    + intros t. rewrite tasks_Merge. unfold as_list. by rewrite elem_of_elements.
    + unfold Merge, tasks at 1. simpl. apply size_list_to_set_remove_dups.
Qed.

(** C5. An event constructed with [always_handle] set says it should be
    handled, whatever its keyword, its [ManifestVersions] handle and the
    tasks assigned to it. *)
Theorem ShouldHandle_always_handle :
  (∀ k mv, ShouldHandle (__init__ k mv true) = true) ∧
  (∀ k mv l, ShouldHandle (set_tasks (__init__ k mv true) l) = true) ∧
  (∀ k mv ts,
     ShouldHandle {| _keyword := k; _mv := mv; _tasks := ts;
                     _always_handle := true |} = true).
Proof. done. Qed.

End EventProps.

(** ** [Handle] *)

Section HandleProps.

Context {ext : Externals} {contract : TaskContract} {cls : EventClass}.

Variable scheduler : Scheduler.
Variable branch_builds : branch_builds_t.
Variable board : string.
Variable force : bool.
Variable launch_control_builds : option (list string).

Local Abbreviation body := (Handle_body scheduler branch_builds board force
                              launch_control_builds).
Local Abbreviation loop := (Handle_loop scheduler branch_builds board force
                              launch_control_builds).

Lemma elem_of_evictions (t : Task) (cs : list call) :
  t ∈ evictions cs ↔
  ∃ sch bb b f mv lcb, CallRun t sch bb b f mv lcb (Returned false) ∈ cs.
Proof.
  unfold evictions. rewrite elem_of_list_to_set, list_elem_of_omap. split.
  - intros (c & Hc & Hev). destruct c; simpl in Hev; try done.
    destruct r as [[]|]; simplify_eq. eauto 10.
  - intros (sch & bb & b & f & mv & lcb & Hc). eauto.
Qed.

Lemma evictions_app (cs1 cs2 : list call) :
  evictions (cs1 ++ cs2) = evictions cs1 ∪ evictions cs2.
Proof. unfold evictions. rewrite omap_app. apply list_to_set_app_L. Qed.

(** What one turn of the loop can do to the state: it only adds calls, and
    the one field of the event it touches is the task set, which loses the
    task exactly when its [Run] returned false. *)
Lemma Handle_body_effect (t : Task) (s s' : state) (r : outcome unit) :
  body t s = (r, s') →
  ∃ new,
    calls s' = calls s ++ new ∧
    _keyword (self s') = _keyword (self s) ∧
    _mv (self s') = _mv (self s) ∧
    _always_handle (self s') = _always_handle (self s) ∧
    _tasks (self s') = _tasks (self s) ∖ evictions new ∧
    evictions new ⊆ {[t]}.
Proof.
  unfold Handle_body, bind, external, gets, tasks_remove, log, ret.
  destruct (AvailableHosts t scheduler board (world s)) as [[[]|e] w]; simpl.
  - destruct (Run _ _ _ _ _ _ _ w) as [[[]|e] w2]; simpl;
      try case_decide; intros [= <- <-]; added_calls.
  - destruct (ShouldHaveAvailableHosts t w) as [[[]|e] w2]; simpl;
      intros [= <- <-]; added_calls.
  - intros [= <- <-]; added_calls.
Qed.

Lemma Handle_loop_effect (l : list Task) (s s' : state) (r : outcome unit) :
  loop l s = (r, s') →
  ∃ new,
    calls s' = calls s ++ new ∧
    _keyword (self s') = _keyword (self s) ∧
    _mv (self s') = _mv (self s) ∧
    _always_handle (self s') = _always_handle (self s) ∧
    _tasks (self s') = _tasks (self s) ∖ evictions new ∧
    evictions new ⊆ list_to_set l.
Proof.
  revert s. induction l as [|t l IH]; intros s; simpl.
  - intros [= <- <-]. exists []. rewrite app_nil_r. set_solver.
  - unfold bind. destruct (body t s) as [[[]|e] s1] eqn:Hb.
    + intros Hl.
      destruct (Handle_body_effect _ _ _ _ Hb)
        as (n1 & Hc1 & Hk1 & Hm1 & Ha1 & Ht1 & He1).
      destruct (IH _ Hl) as (n2 & Hc2 & Hk2 & Hm2 & Ha2 & Ht2 & He2).
      exists (n1 ++ n2).
      rewrite Hc2, Hc1, Hk2, Hk1, Hm2, Hm1, Ha2, Ha1, Ht2, Ht1, evictions_app.
      rewrite app_assoc. set_solver.
    + intros [= <- <-].
      destruct (Handle_body_effect _ _ _ _ Hb)
        as (n1 & Hc1 & Hk1 & Hm1 & Ha1 & Ht1 & He1).
      exists n1. set_solver.
Qed.

(** The loop over a concatenation runs the first list and, if that
    returns, the second. *)
Lemma Handle_loop_app (l1 l2 : list Task) (s : state) :
  loop (l1 ++ l2) s =
  match loop l1 s with
  | (Returned _, s1) => loop l2 s1
  | (Raised e, s1) => (Raised e, s1)
  end.
Proof.
  revert s. induction l1 as [|t l1 IH]; intros s; simpl; [done|].
  unfold bind. destruct (body t s) as [[[]|e] s1]; [apply IH | done].
Qed.

(** A loop over distinct members of the task set returns when no
    collaborator raises: [remove] always finds its task. *)
Lemma Handle_loop_returns (l : list Task) (s : state) :
  (∀ t w, ∃ a w', AvailableHosts t scheduler board w = (Returned a, w')) →
  (∀ t w, ∃ a w', ShouldHaveAvailableHosts t w = (Returned a, w')) →
  (∀ t mv w, ∃ a w', Run t scheduler branch_builds board force mv
                       launch_control_builds w = (Returned a, w')) →
  NoDup l →
  (∀ t, t ∈ l → t ∈ _tasks (self s)) →
  ∃ s', loop l s = (Returned tt, s').
Proof.
  intros HA HS HR. revert s.
  induction l as [|t l IH]; intros s Hnd Hin; simpl; [by eexists|].
  apply NoDup_cons in Hnd as [Hnt Hnd].
  assert (∃ s1, body t s = (Returned tt, s1)) as [s1 Hb].
  { unfold Handle_body, bind, external, gets, tasks_remove, log, ret.
    destruct (HA t (world s)) as (a & w & ->). destruct a; simpl.
    - destruct (HR t (_mv (self s)) w) as (k & w2 & ->). destruct k; simpl.
      + by eexists.
      + rewrite decide_True by (apply Hin; left). by eexists.
    - destruct (HS t w) as ([] & w2 & ->); simpl; by eexists. }
  unfold bind. rewrite Hb. apply IH; [done|].
  intros u Hu.
  destruct (Handle_body_effect _ _ _ _ Hb) as (n1 & _ & _ & _ & _ & -> & He1).
  apply elem_of_difference. split; [apply Hin; by right|].
  intros Hev. apply He1, elem_of_singleton in Hev. by subst.
Qed.

End HandleProps.

Section HandleClaims.

Context {ext : Externals} {contract : TaskContract}.

Variable scheduler : Scheduler.
Variable branch_builds : branch_builds_t.
Variable board : string.
Variable launch_control_builds : option (list string).

(** The state in which [Handle] picks its candidates: the one it was called
    in, with the opening log line added. *)
Local Abbreviation opened s :=
  {| self := self s; world := world s;
     calls := calls s ++ [LogInfo (keyword (self s)) board] |}.

(** C3. With [force] set, [Handle] loops over a list of exactly the members
    of the task set, each once, whatever [FilterTasks] is overridden with;
    without it, over the very list [FilterTasks] returns (and it raises what
    [FilterTasks] raises). *)
Theorem Handle_candidates (any : EventClass) (s : state) :
  (∃ l, NoDup l ∧ (∀ t, t ∈ l ↔ t ∈ tasks (self s)) ∧
        @Handle _ _ any scheduler branch_builds board true
                launch_control_builds s
        = Handle_loop scheduler branch_builds board true
                      launch_control_builds l (opened s)) ∧
  @Handle _ _ any scheduler branch_builds board false launch_control_builds s
  = match @FilterTasks _ any (self s) (world s) with
    | (Returned l, w) =>
        Handle_loop scheduler branch_builds board false launch_control_builds l
          {| self := self s; world := w;
             calls := calls s ++ [LogInfo (keyword (self s)) board] |}
    | (Raised e, w) =>
        (Raised e,
         {| self := self s; world := w;
            calls := calls s ++ [LogInfo (keyword (self s)) board] |})
    end.
Proof.
  split.
  - exists (as_list (tasks (self s))). split_and!.
    + apply NoDup_elements.
    + intros t. apply elem_of_elements.
    + done.
  - unfold Handle, Handle_tasks, call_FilterTasks, bind, gets, log. simpl.
    by destruct (FilterTasks (self s) (world s)) as [[l|e] w].
Qed.

Context {cls : EventClass}.
Variable force : bool.

Local Abbreviation loop := (Handle_loop scheduler branch_builds board force
                              launch_control_builds).

Lemma Handle_unfold (s : state) :
  Handle scheduler branch_builds board force launch_control_builds s
  = match Handle_tasks force (opened s) with
    | (Returned l, s0) => loop l s0
    | (Raised e, s0) => (Raised e, s0)
    end.
Proof. done. Qed.

Lemma Handle_tasks_effect (s s0 : state) (r : outcome (list Task)) :
  Handle_tasks force s = (r, s0) → self s0 = self s ∧ calls s0 = calls s.
Proof.
  unfold Handle_tasks, call_FilterTasks, gets. destruct force.
  - by intros [= <- <-].
  - destruct (FilterTasks (self s) (world s)) as [r' w]. by intros [= <- <-].
Qed.

(** The task set after [Handle], whether it returned or raised, is the set
    before without the tasks whose [Run] returned false in between. *)
Lemma Handle_effect (s s' : state) (r : outcome unit) :
  Handle scheduler branch_builds board force launch_control_builds s = (r, s') →
  ∃ new,
    calls s' = calls s ++ new ∧
    _tasks (self s') = _tasks (self s) ∖ evictions new.
Proof.
  rewrite Handle_unfold.
  destruct (Handle_tasks force (opened s)) as [[l|e] s0] eqn:Ht;
    destruct (Handle_tasks_effect _ _ _ Ht) as [Hs Hc]; simpl in Hs, Hc.
  - intros Hl.
    destruct (Handle_loop_effect _ _ _ _ _ _ _ _ _ Hl)
      as (new & Hc' & _ & _ & _ & Ht' & _).
    exists (LogInfo (keyword (self s)) board :: new).
    rewrite Hc', Hc, Ht', Hs, <- app_assoc. by split.
  - intros [= <- <-]. exists [LogInfo (keyword (self s)) board].
    rewrite Hc, Hs. split; [done|]. set_solver.
Qed.

(** C1, amended.  When [Handle] returns, every task whose [Run] returned
    false during the call is absent from the task set, and every other task
    that was in the set is still in it unless its own [Run] returned false
    during the call as well. *)
Theorem Handle_removes_one_shot_tasks (s s' : state) (t : Task) :
  Handle scheduler branch_builds board force launch_control_builds s
    = (Returned tt, s') →
  t ∈ evictions (drop (length (calls s)) (calls s')) →
  (t ∉ tasks (self s')) ∧
  ∀ u, u ∈ tasks (self s) →
       u ∉ evictions (drop (length (calls s)) (calls s')) →
       u ∈ tasks (self s').
Proof.
  intros Hh. destruct (Handle_effect _ _ _ Hh) as (new & Hc & Ht).
  rewrite Hc, drop_app_length. unfold tasks. rewrite Ht. set_solver.
Qed.

(** [Handle] does return in the setting of the amended C1: with [force], or
    with [FilterTasks] as [BaseEvent] has it, when no collaborator raises. *)
Lemma Handle_returns (s : state) :
  (∀ t w, ∃ a w', AvailableHosts t scheduler board w = (Returned a, w')) →
  (∀ t w, ∃ a w', ShouldHaveAvailableHosts t w = (Returned a, w')) →
  (∀ t mv w, ∃ a w', Run t scheduler branch_builds board force mv
                       launch_control_builds w = (Returned a, w')) →
  force = true ∨ FilterTasks = BaseEvent_FilterTasks →
  ∃ s', Handle scheduler branch_builds board force launch_control_builds s
        = (Returned tt, s').
Proof.
  intros HA HS HR Hc. rewrite Handle_unfold.
  assert (Handle_tasks force (opened s)
          = (Returned (as_list (tasks (self s))), opened s)) as ->.
  { unfold Handle_tasks, call_FilterTasks, gets.
    destruct force; [done|]. by destruct Hc as [?| ->]. }
  apply Handle_loop_returns; [done..| apply NoDup_elements |].
  intros t. apply elem_of_elements.
Qed.

(** Where the loop stops when a task's [Run] raises. *)
Lemma Handle_loop_Run_raises (pre post : list Task) (t : Task) (e : exn)
    (s s1 : state) (w1 w2 : World) :
  loop pre s = (Returned tt, s1) →
  AvailableHosts t scheduler board (world s1) = (Returned true, w1) →
  Run t scheduler branch_builds board force (_mv (self s1))
      launch_control_builds w1 = (Raised e, w2) →
  loop (pre ++ t :: post) s
  = (Raised e,
     {| self := self s1; world := w2;
        calls := calls s1 ++
          [CallAvailableHosts t scheduler board (Returned true);
           CallRun t scheduler branch_builds board force (_mv (self s1))
                   launch_control_builds (Raised e)] |}).
Proof.
  intros Hpre HA HR. rewrite Handle_loop_app, Hpre. simpl.
  unfold bind at 1. unfold Handle_body, bind, external, gets.
  rewrite HA. simpl. rewrite HR. simpl. by rewrite <- app_assoc.
Qed.

(** C7. If [Run] raises for a candidate, [Handle] raises the same exception;
    the event is as the candidates before it left it and the last calls on
    record are the host check and the [Run] of the failing task, so no later
    candidate is checked, run or removed. *)
Theorem Handle_Run_failure_propagates (pre post : list Task) (t : Task)
    (e : exn) (s s0 s1 : state) (w1 w2 : World) :
  Handle_tasks force (opened s) = (Returned (pre ++ t :: post), s0) →
  loop pre s0 = (Returned tt, s1) →
  AvailableHosts t scheduler board (world s1) = (Returned true, w1) →
  Run t scheduler branch_builds board force (_mv (self s1))
      launch_control_builds w1 = (Raised e, w2) →
  Handle scheduler branch_builds board force launch_control_builds s
  = (Raised e,
     {| self := self s1; world := w2;
        calls := calls s1 ++
          [CallAvailableHosts t scheduler board (Returned true);
           CallRun t scheduler branch_builds board force (_mv (self s1))
                   launch_control_builds (Raised e)] |}).
Proof.
  intros Ht Hpre HA HR. rewrite Handle_unfold, Ht.
  by apply Handle_loop_Run_raises with w1.
Qed.

(** One turn of the loop on a task whose host check returns false: the loop
    goes on from a state with the same event, having made the host check
    and asked whether hosts are needed.  Only when they are is a warning
    logged. *)
Lemma Handle_skips_task_without_hosts (pre post : list Task) (t : Task)
    (s s1 : state) (w1 w2 : World) (r : outcome bool) :
  loop pre s = (Returned tt, s1) →
  AvailableHosts t scheduler board (world s1) = (Returned false, w1) →
  ShouldHaveAvailableHosts t w1 = (r, w2) →
  loop (pre ++ t :: post) s
  = let s2 := {| self := self s1; world := w2;
                 calls := calls s1 ++
                   CallAvailableHosts t scheduler board (Returned false) ::
                   CallShouldHaveAvailableHosts t r ::
                   match r with
                   | Returned true => [LogWarning t board]
                   | _ => []
                   end |} in
    match r with
    | Returned _ => loop post s2
    | Raised e => (Raised e, s2)
    end.
Proof.
  intros Hpre HA HS. rewrite Handle_loop_app, Hpre. simpl.
  unfold bind at 1. unfold Handle_body, bind, external, gets, log, ret.
  rewrite HA. simpl. rewrite HS. simpl.
  destruct r as [[]|e]; simpl; by rewrite <- !app_assoc.
Qed.

End HandleClaims.

(** ** [_LatestLaunchControlBuilds] *)

Section LatestProps.

Context {ext : Externals} {contract : TaskContract}
        {build_server : AndroidBuildServer} {utils : Utils}.

Lemma latest_build_format (branch target : string) :
  Py.format _LATEST_LAUNCH_CONTROL_BUILD_FMT [Py.Str branch; Py.Str target]
  = Some (branch +:+ "/" +:+ target +:+ "/LATEST").
Proof. reflexivity. Qed.

Lemma translate_targets_cons (d : DevServer) (branch t : string)
    (ts acc : list string) (s : state) :
  translate_targets d branch (t :: ts) acc s
  = bind (external (translate d (branch +:+ "/" +:+ t +:+ "/LATEST"))
                   (CallTranslate d (branch +:+ "/" +:+ t +:+ "/LATEST")))
         (λ b, translate_targets d branch ts (acc ++ [b])) s.
Proof. reflexivity. Qed.

Lemma queries_app (cs1 cs2 : list call) :
  queries (cs1 ++ cs2) = queries cs1 ++ queries cs2.
Proof. apply omap_app. Qed.

(** The inner loop asks once per target, in order, and appends one build
    per question. *)
Lemma translate_targets_effect (d : DevServer) (branch : string)
    (ts acc builds : list string) (s s' : state) :
  translate_targets d branch ts acc s = (Returned builds, s') →
  ∃ new ids,
    calls s' = calls s ++ new ∧ self s' = self s ∧
    queries new = (λ t, branch +:+ "/" +:+ t +:+ "/LATEST") <$> ts ∧
    builds = acc ++ ids ∧ length ids = length ts.
Proof.
  revert acc s. induction ts as [|t ts IH]; intros acc s.
  - intros [= <- <-]. exists [], []. by rewrite !app_nil_r.
  - rewrite translate_targets_cons. unfold bind, external.
    destruct (translate d _ (world s)) as [[b|e] w]; [|done].
    intros (new & ids & Hc & Hs & Hq & Hb & Hl)%IH. simpl in Hc, Hs.
    eexists (_ :: new), (b :: ids).
    rewrite Hc, Hs, Hb, <- !app_assoc. simpl.
    rewrite Hq, Hl. done.
Qed.

Lemma translate_branches_effect (board : string) (d : DevServer)
    (items : list (string * list string)) (acc builds : list string)
    (s s' : state) :
  translate_branches board d items acc s = (Returned builds, s') →
  ∃ new ids,
    calls s' = calls s ++ new ∧ self s' = self s ∧
    queries new =
      ('(branch, targets) ← items;
       (λ t, branch +:+ "/" +:+ t +:+ "/LATEST")
         <$> filter (λ t, Some board = (parse_launch_control_target t).1)
                    targets) ∧
    builds = acc ++ ids ∧ length ids = length (queries new).
Proof.
  revert acc s. induction items as [|[branch targets] items IH];
    intros acc s; simpl.
  - intros [= <- <-]. exists [], []. by rewrite !app_nil_r.
  - unfold bind at 1.
    destruct (translate_targets _ _ _ _ s) as [[b1|e] s1] eqn:Ht; [|done].
    apply translate_targets_effect in Ht
      as (n1 & i1 & Hc1 & Hs1 & Hq1 & -> & Hl1).
    intros (n2 & i2 & Hc2 & Hs2 & Hq2 & -> & Hl2)%IH.
    exists (n1 ++ n2), (i1 ++ i2).
    rewrite Hc2, Hc1, Hs2, Hs1, queries_app, Hq2, !length_app, Hl2, Hl1, Hq1.
    rewrite !length_fmap, <- !app_assoc. split_and!; [done..|].
    by rewrite Hq2.
Qed.

(** Two tasks on one branch: the view lists the targets of the first task
    visited, then those of the second. *)
Lemma view_of_two_tasks (e : BaseEvent) (t1 t2 : Task) (branch : string) :
  as_list (_tasks e) = [t1; t2] →
  launch_control_branches t1 = [branch] →
  launch_control_branches t2 = [branch] →
  launch_control_branches_targets e
  = {[ branch := launch_control_targets t1 ++ launch_control_targets t2 ]}.
Proof.
  intros He Hb1 Hb2. unfold launch_control_branches_targets.
  rewrite He. simpl. rewrite Hb1, Hb2. simpl. unfold setdefault_extend.
  rewrite lookup_empty. simpl. rewrite insert_empty, lookup_singleton_eq. simpl.
  apply insert_singleton_eq.
Qed.

(** The queries of one item are a stretch of the queries of all. *)
Lemma sublist_bind {A B} (f : A → list B) (x : A) (l : list A) :
  x ∈ l → f x `sublist_of` (l ≫= f).
Proof.
  induction l as [|y l IH]; [by intros ?%elem_of_nil|].
  intros [->|Hx]%elem_of_cons; cbn [mbind list_bind].
  - by apply sublist_inserts_r.
  - by apply sublist_inserts_l, IH.
Qed.

(** When the lookup returns, the event is untouched and one build comes
    back per query.  In whatever order the branches are visited, the
    queries are those of the specification for the translated board, each
    as often as there; and those of one branch come in the order of its
    targets. *)
Theorem latest_builds_query_law (board : string) (builds : list string)
    (s s' : state) :
  _LatestLaunchControlBuilds board s = (Returned builds, s') →
  self s' = self s ∧
  queries (drop (length (calls s)) (calls s'))
    ≡ₚ spec_latest_queries
         (default board (ANDROID_BOARD_TO_TARGET_MAP !! board)) (self s) ∧
  (∀ branch targets,
     launch_control_branches_targets (self s) !! branch = Some targets →
     ((λ t, branch +:+ "/" +:+ t +:+ "/LATEST")
        <$> filter (λ t, Some (default board
                                 (ANDROID_BOARD_TO_TARGET_MAP !! board))
                         = (parse_launch_control_target t).1) targets)
     `sublist_of` queries (drop (length (calls s)) (calls s'))) ∧
  length builds = length (queries (drop (length (calls s)) (calls s'))).
Proof.
  unfold _LatestLaunchControlBuilds, bind, external, gets.
  destruct (random (world s)) as [[d|e] w]; [|done]. simpl.
  intros (new & ids & Hc & Hs & Hq & -> & Hl)%translate_branches_effect.
  simpl in Hc, Hs.
  rewrite Hc, <- app_assoc, drop_app_length. simpl.
  split_and!; [done | by rewrite Hq | | by rewrite Hl].
  intros branch targets Hb. rewrite Hq.
  apply (sublist_bind
           (λ '(branch, targets),
              (λ t, branch +:+ "/" +:+ t +:+ "/LATEST")
                <$> filter (λ t, Some (default board
                                         (ANDROID_BOARD_TO_TARGET_MAP !! board))
                                 = (parse_launch_control_target t).1) targets)
           (branch, targets)).
  by apply elem_of_map_to_list.
Qed.

(** C6. On an event whose branch-to-targets view is [git_mnc_release] with
    the targets [shamu-eng] and [shamu-userdebug], both of board [shamu],
    which the alias table leaves as it is, the lookup picks a devserver,
    asks it for [git_mnc_release/shamu-eng/LATEST] and
    [git_mnc_release/shamu-userdebug/LATEST] and for nothing else, and
    returns the two answers. *)
Theorem latest_builds_two_targets (s : state) (d : DevServer)
    (w1 w2 w3 : World) (build1 build2 : string) :
  default "shamu" (ANDROID_BOARD_TO_TARGET_MAP !! "shamu") = "shamu" →
  (parse_launch_control_target "shamu-eng").1 = Some "shamu" →
  (parse_launch_control_target "shamu-userdebug").1 = Some "shamu" →
  launch_control_branches_targets (self s)
    = {[ "git_mnc_release" := ["shamu-eng"; "shamu-userdebug"] ]} →
  random (world s) = (Returned d, w1) →
  translate d "git_mnc_release/shamu-eng/LATEST" w1 = (Returned build1, w2) →
  translate d "git_mnc_release/shamu-userdebug/LATEST" w2
    = (Returned build2, w3) →
  _LatestLaunchControlBuilds "shamu" s
  = (Returned [build1; build2],
     {| self := self s; world := w3;
        calls := calls s ++
          [CallRandom (Returned d);
           CallTranslate d "git_mnc_release/shamu-eng/LATEST" (Returned build1);
           CallTranslate d "git_mnc_release/shamu-userdebug/LATEST"
                         (Returned build2)] |}) ∧
  spec_latest_queries "shamu" (self s)
  = ["git_mnc_release/shamu-eng/LATEST";
     "git_mnc_release/shamu-userdebug/LATEST"].
Proof.
  intros Halias Heng Hdebug Hview Hrandom Ht1 Ht2.
  assert (filter (λ t, Some "shamu" = (parse_launch_control_target t).1)
                 ["shamu-eng"; "shamu-userdebug"]
          = ["shamu-eng"; "shamu-userdebug"]) as Hfilter.
  { rewrite !filter_cons_True by done. done. }
  split.
  - unfold _LatestLaunchControlBuilds, bind at 1, external, gets.
    rewrite Halias, Hrandom. unfold bind at 1. cbn [self world calls].
    rewrite Hview, map_to_list_singleton.
    cbn [translate_branches]. rewrite Hfilter. unfold bind at 1.
    rewrite !translate_targets_cons. unfold bind, external, ret.
    cbn [self world calls].
    spell_query "git_mnc_release/shamu-eng/LATEST". rewrite Ht1.
    rewrite translate_targets_cons. unfold bind, external, ret.
    cbn [self world calls].
    spell_query "git_mnc_release/shamu-userdebug/LATEST". rewrite Ht2.
    cbn [self world calls]. by rewrite <- !app_assoc.
  - unfold spec_latest_queries.
    rewrite Hview, map_to_list_singleton. cbn [mbind list_bind].
    rewrite Hfilter. reflexivity.
Qed.

End LatestProps.

(** * Further properties of the module *)

(** ** Section names *)

Lemma append_cancel_r (a b suffix : string) :
  a +:+ suffix = b +:+ suffix → a = b.
Proof.
  revert b. induction a as [|c a IH]; intros [|d b] Heq.
  - done.
  - apply (f_equal String.length) in Heq.
    rewrite !length_append in Heq. simpl in Heq. lia.
  - apply (f_equal String.length) in Heq.
    rewrite !length_append in Heq. simpl in Heq. lia.
  - rewrite !append_cons in Heq. injection Heq as -> Heq.
    f_equal. by apply IH.
Qed.

(** Two keywords never share a configuration section. *)
Theorem SectionName_inj (k1 k2 : string) :
  SectionName k1 = SectionName k2 → k1 = k2.
Proof. apply append_cancel_r. Qed.

(** ** Assigning and merging task sets *)

Section EventComposition.

Context {ext : Externals}.

Lemma BaseEvent_eq (a b : BaseEvent) :
  _keyword a = _keyword b → _mv a = _mv b → _tasks a = _tasks b →
  _always_handle a = _always_handle b → a = b.
Proof. destruct a, b. simpl. by intros -> -> -> ->. Qed.

(** The setter looks at which tasks the iterable holds, not at their order
    or number of occurrences. *)
Theorem set_tasks_same_members (e : BaseEvent) (l1 l2 : list Task) :
  (∀ t, t ∈ l1 ↔ t ∈ l2) → set_tasks e l1 = set_tasks e l2.
Proof.
  intros Hl. apply BaseEvent_eq; try done. simpl.
  apply set_eq. intros t. by rewrite !elem_of_list_to_set.
Qed.

(** Reading the tasks and assigning them back changes nothing; [Merge] of an
    event with itself changes nothing; merging twice is merging once; and of
    two merges in a row only the last one counts. *)
Theorem Merge_composition (a b c : BaseEvent) :
  set_tasks a (as_list (tasks a)) = a ∧
  Merge a a = a ∧
  Merge (Merge a b) b = Merge a b ∧
  Merge (Merge a b) c = Merge a c.
Proof.
  split_and!; apply BaseEvent_eq; try done; simpl;
    unfold tasks, as_list; by rewrite ?list_to_set_elements_L.
Qed.

End EventComposition.

(** ** The branch-to-targets view *)

Section ViewProps.

Context {ext : Externals} {contract : TaskContract}.

Lemma setdefault_extend_fold (targets : list string) (branches : list string)
    (m : gmap string (list string)) (b target : string) :
  let m' := foldl (setdefault_extend targets) m branches in
  (is_Some (m' !! b) ↔ is_Some (m !! b) ∨ b ∈ branches) ∧
  (target ∈ default [] (m' !! b) ↔
   target ∈ default [] (m !! b) ∨ (b ∈ branches ∧ target ∈ targets)).
Proof.
  revert m. induction branches as [|b0 branches IH]; intros m; simpl.
  - split; [set_solver|]. set_solver.
  - destruct (IH (setdefault_extend targets m b0)) as [IHd IHt].
    simpl in IHd, IHt. rewrite IHd, IHt. clear IHd IHt IH.
    unfold setdefault_extend. rewrite lookup_insert.
    case_decide as Hb; simpl.
    + subst b0. rewrite elem_of_app. split.
      * split; [intros _; right; left | intros _; by left].
      * set_solver.
    + split; [|set_solver].
      rewrite elem_of_cons. naive_solver.
Qed.

Lemma view_fold (l : list Task) (m : gmap string (list string))
    (b target : string) :
  let m' := foldl (λ branches task,
                     foldl (setdefault_extend (launch_control_targets task))
                           branches (launch_control_branches task)) m l in
  (is_Some (m' !! b) ↔
   is_Some (m !! b) ∨ ∃ t, t ∈ l ∧ b ∈ launch_control_branches t) ∧
  (target ∈ default [] (m' !! b) ↔
   target ∈ default [] (m !! b) ∨
   ∃ t, t ∈ l ∧ b ∈ launch_control_branches t ∧
        target ∈ launch_control_targets t).
Proof.
  revert m. induction l as [|t0 l IH]; intros m; simpl.
  - split; [set_solver|]. set_solver.
  - destruct (IH (foldl (setdefault_extend (launch_control_targets t0)) m
                        (launch_control_branches t0))) as [IHd IHt].
    simpl in IHd, IHt. rewrite IHd, IHt. clear IHd IHt IH.
    destruct (setdefault_extend_fold (launch_control_targets t0)
                (launch_control_branches t0) m b target) as [Hd Ht].
    simpl in Hd, Ht. rewrite Hd, Ht. clear Hd Ht.
    split.
    + split.
      * intros [[?|?]|(t & Ht & ?)]; [by left | right; exists t0; set_solver
                                      | right; exists t; set_solver].
      * intros [?|(t & [->|Ht]%elem_of_cons & ?)];
          [by left; left | by left; right | right; by exists t].
    + split.
      * intros [[?|[? ?]]|(t & Ht & ? & ?)];
          [by left | right; exists t0; set_solver | right; exists t; set_solver].
      * intros [?|(t & [->|Ht]%elem_of_cons & ? & ?)];
          [by left; left | by left; right | right; by exists t].
Qed.

(** A branch is a key of the view exactly when some task of the event
    follows it, and a target is listed under a branch exactly when some task
    that follows the branch names it.  An event without tasks has an empty
    view. *)
Theorem view_membership (e : BaseEvent) (b target : string) :
  (is_Some (launch_control_branches_targets e !! b) ↔
   ∃ t, t ∈ tasks e ∧ b ∈ launch_control_branches t) ∧
  (target ∈ default [] (launch_control_branches_targets e !! b) ↔
   ∃ t, t ∈ tasks e ∧ b ∈ launch_control_branches t ∧
        target ∈ launch_control_targets t).
Proof.
  unfold launch_control_branches_targets, as_list, tasks.
  destruct (view_fold (elements (_tasks e)) ∅ b target) as [Hd Ht].
  simpl in Hd, Ht. rewrite Hd, Ht, lookup_empty. simpl.
  setoid_rewrite elem_of_elements.
  split; (split; [intros [Hf|?]; [|done] | by right]).
  - by destruct Hf.
  - by apply elem_of_nil in Hf.
Qed.

End ViewProps.

(** ** More on [Handle] *)

Section HandleMore.

Context {ext : Externals} {contract : TaskContract} {cls : EventClass}.

Variable scheduler : Scheduler.
Variable branch_builds : branch_builds_t.
Variable board : string.
Variable force : bool.
Variable launch_control_builds : option (list string).

Local Abbreviation body := (Handle_body scheduler branch_builds board force
                              launch_control_builds).
Local Abbreviation loop := (Handle_loop scheduler branch_builds board force
                              launch_control_builds).
Local Abbreviation opened s :=
  {| self := self s; world := world s;
     calls := calls s ++ [LogInfo (keyword (self s)) board] |}.

(** One turn of the loop checks the hosts of its task once, first of all,
    and runs at most that task. *)
Lemma Handle_body_order (t : Task) (s s' : state) (r : outcome unit) :
  body t s = (r, s') →
  ∃ new, calls s' = calls s ++ new ∧ host_checks new = [t] ∧
         (runs new = [] ∨ runs new = [t]).
Proof.
  unfold Handle_body, bind, external, gets, tasks_remove, log, ret.
  destruct (AvailableHosts t scheduler board (world s)) as [[[]|e] w]; simpl.
  - destruct (Run _ _ _ _ _ _ _ w) as [[[]|e] w2]; simpl;
      try case_decide; intros [= <- <-]; eexists;
      (split; [by rewrite <- ?app_assoc|]); simpl; auto.
  - destruct (ShouldHaveAvailableHosts t w) as [[[]|e] w2]; simpl;
      intros [= <- <-]; eexists;
      (split; [by rewrite <- ?app_assoc|]); simpl; auto.
  - intros [= <- <-]. eexists. split; [done|]. simpl. auto.
Qed.

Lemma Handle_loop_order (l : list Task) (s s' : state) (r : outcome unit) :
  loop l s = (r, s') →
  ∃ new, calls s' = calls s ++ new ∧
         host_checks new `prefix_of` l ∧
         runs new `sublist_of` host_checks new ∧
         (r = Returned tt → host_checks new = l).
Proof.
  revert s. induction l as [|t l IH]; intros s; simpl.
  - intros [= <- <-]. exists []. by rewrite app_nil_r.
  - unfold bind. destruct (body t s) as [[[]|e] s1] eqn:Hb;
      destruct (Handle_body_order _ _ _ _ Hb) as (n1 & Hc1 & Hh1 & Hr1).
    + intros (n2 & Hc2 & Hp2 & Hs2 & He2)%IH.
      exists (n1 ++ n2). unfold host_checks, runs in *.
      rewrite Hc2, Hc1, app_assoc, !omap_app, Hh1. split_and!.
      * done.
      * by apply prefix_cons.
      * destruct Hr1 as [->| ->]; simpl;
          [by apply sublist_cons | by apply sublist_skip].
      * intros Hr. simpl. f_equal. by apply He2.
    + intros [= <- <-]. exists n1. unfold host_checks, runs in *.
      rewrite Hh1. split_and!; [done | | | done].
      * apply prefix_cons, prefix_nil.
      * destruct Hr1 as [->| ->]; [apply sublist_nil_l | done].
Qed.

(** When one turn of the loop raises, the exception is the one the last
    call on record ended with, unless it is the [KeyError] of removing a
    task that is not in the set. *)
Lemma Handle_body_failure (t : Task) (s s' : state) (e : exn) :
  body t s = (Raised e, s') →
  ∃ c, last (calls s') = Some c ∧
       (raised c = Some e ∨
        (e = KeyError ∧ evicted c = Some t ∧ t ∉ tasks (self s'))).
Proof.
  unfold Handle_body, bind, external, gets, tasks_remove, log, ret.
  destruct (AvailableHosts t scheduler board (world s)) as [[[]|e0] w]; simpl.
  - destruct (Run _ _ _ _ _ _ _ w) as [[[]|e1] w2]; simpl;
      try case_decide; intros [= <- <-]; eexists;
      (split; [apply last_snoc|]); simpl; auto.
  - destruct (ShouldHaveAvailableHosts t w) as [[[]|e1] w2]; simpl;
      intros [= <- <-]; eexists; (split; [apply last_snoc|]); simpl; auto.
  - intros [= <- <-]. eexists. split; [apply last_snoc|]. simpl. auto.
Qed.

Lemma Handle_loop_failure (l : list Task) (s s' : state) (e : exn) :
  loop l s = (Raised e, s') →
  ∃ c, last (calls s') = Some c ∧
       (raised c = Some e ∨
        (e = KeyError ∧ ∃ t, evicted c = Some t ∧ t ∉ tasks (self s'))).
Proof.
  revert s. induction l as [|t l IH]; intros s; simpl; [done|].
  unfold bind. destruct (body t s) as [[[]|e0] s1] eqn:Hb; [apply IH|].
  intros [= <- <-].
  destruct (Handle_body_failure _ _ _ _ Hb) as (c & Hc & Hor).
  exists c. split; [done|]. destruct Hor as [?|(? & ? & ?)]; eauto.
Qed.

(** Whatever [Handle] does and however it ends, the event keeps its
    keyword, its [ManifestVersions] handle and its answer to [ShouldHandle];
    its task set can only shrink; and the calls on record are the old ones,
    then the line that announces the keyword and the board, then the rest. *)
Theorem Handle_keeps_identity (s s' : state) (r : outcome unit) :
  Handle scheduler branch_builds board force launch_control_builds s = (r, s') →
  keyword (self s') = keyword (self s) ∧
  _mv (self s') = _mv (self s) ∧
  ShouldHandle (self s') = ShouldHandle (self s) ∧
  tasks (self s') ⊆ tasks (self s) ∧
  ∃ rest, calls s' = calls s ++ LogInfo (keyword (self s)) board :: rest.
Proof.
  rewrite Handle_unfold.
  destruct (Handle_tasks force (opened s)) as [[l|e] s0] eqn:Ht;
    destruct (Handle_tasks_effect _ _ _ _ Ht) as [Hs Hc]; simpl in Hs, Hc.
  - intros Hl.
    destruct (Handle_loop_effect _ _ _ _ _ _ _ _ _ Hl)
      as (new & Hc' & Hk & Hm & Ha & Ht' & _).
    unfold keyword, ShouldHandle, tasks.
    rewrite Hk, Hm, Ha, Ht', Hc', Hc, Hs, <- app_assoc.
    split_and!; [done | done | done | set_solver | by exists new].
  - intros [= <- <-]. rewrite Hs, Hc. split_and!; [done..|by exists []].
Qed.

(** A task that is not among the candidates is never removed: what
    [FilterTasks] leaves out stays in the set. *)
Theorem Handle_spares_non_candidates (l : list Task) (s s0 s' : state)
    (r : outcome unit) (u : Task) :
  Handle_tasks force (opened s) = (Returned l, s0) →
  Handle scheduler branch_builds board force launch_control_builds s = (r, s') →
  u ∈ tasks (self s) → u ∉ l → u ∈ tasks (self s').
Proof.
  intros Ht. rewrite Handle_unfold, Ht. intros Hl Hu Hnl.
  destruct (Handle_tasks_effect _ _ _ _ Ht) as [Hs _]. simpl in Hs.
  destruct (Handle_loop_effect _ _ _ _ _ _ _ _ _ Hl)
    as (new & _ & _ & _ & _ & Ht' & Hev).
  unfold tasks in *. rewrite Ht', Hs. set_solver.
Qed.

(** Host checks follow the candidate list: [Handle] checks the candidates
    one by one from the front, runs a task only right after checking it,
    and, when it returns, has checked every candidate exactly once per
    place in the list. *)
Theorem Handle_checks_candidates_in_order (l : list Task) (s s0 s' : state)
    (r : outcome unit) :
  Handle_tasks force (opened s) = (Returned l, s0) →
  Handle scheduler branch_builds board force launch_control_builds s = (r, s') →
  host_checks (drop (length (calls s)) (calls s')) `prefix_of` l ∧
  runs (drop (length (calls s)) (calls s'))
    `sublist_of` host_checks (drop (length (calls s)) (calls s')) ∧
  (r = Returned tt → host_checks (drop (length (calls s)) (calls s')) = l).
Proof.
  intros Ht. rewrite Handle_unfold, Ht. intros Hl.
  destruct (Handle_tasks_effect _ _ _ _ Ht) as [_ Hc]. simpl in Hc.
  destruct (Handle_loop_order _ _ _ _ Hl) as (new & Hc' & Hp & Hsub & He).
  rewrite Hc', Hc, <- app_assoc, drop_app_length. done.
Qed.

(** An exception that leaves [Handle] is the one [FilterTasks] raised, or
    the one the last call on record raised, or the [KeyError] of removing a
    candidate that is not in the task set. *)
Theorem Handle_failure_origin (s s' : state) (e : exn) :
  Handle scheduler branch_builds board force launch_control_builds s
    = (Raised e, s') →
  (force = false ∧ (FilterTasks (self s) (world s)).1 = Raised e) ∨
  ∃ c, last (calls s') = Some c ∧
       (raised c = Some e ∨
        (e = KeyError ∧ ∃ t, evicted c = Some t ∧ t ∉ tasks (self s'))).
Proof.
  rewrite Handle_unfold.
  destruct (Handle_tasks force (opened s)) as [[l|e0] s0] eqn:Ht.
  - intros Hl. right. by apply Handle_loop_failure in Hl.
  - intros [= <- <-]. left.
    unfold Handle_tasks, call_FilterTasks, gets in Ht. destruct force; [done|].
    simpl in Ht. destruct (FilterTasks (self s) (world s)) as [r w].
    by injection Ht as -> _.
Qed.

(** Removing a candidate that is not in the task set, be it a stranger or
    one listed twice, raises [KeyError]: the loop stops there, after the
    task's [Run], with the set as it was. *)
Theorem Handle_remove_absent_task (pre post : list Task) (t : Task)
    (s s1 : state) (w1 w2 : World) :
  loop pre s = (Returned tt, s1) →
  t ∉ tasks (self s1) →
  AvailableHosts t scheduler board (world s1) = (Returned true, w1) →
  Run t scheduler branch_builds board force (_mv (self s1))
      launch_control_builds w1 = (Returned false, w2) →
  loop (pre ++ t :: post) s
  = (Raised KeyError,
     {| self := self s1; world := w2;
        calls := calls s1 ++
          [CallAvailableHosts t scheduler board (Returned true);
           CallRun t scheduler branch_builds board force (_mv (self s1))
                   launch_control_builds (Returned false)] |}).
Proof.
  intros Hpre Hnot HA HR. rewrite Handle_loop_app, Hpre. simpl.
  unfold bind at 1. unfold Handle_body, bind, external, gets, tasks_remove.
  rewrite HA. simpl. rewrite HR. simpl.
  rewrite decide_False by done. by rewrite <- app_assoc.
Qed.

(** On an event without tasks [Handle] only writes its opening line. *)
Theorem Handle_no_tasks (s : state) :
  tasks (self s) = ∅ →
  force = true ∨ FilterTasks = BaseEvent_FilterTasks →
  Handle scheduler branch_builds board force launch_control_builds s
  = (Returned tt, opened s).
Proof.
  intros Hempty Hc. rewrite Handle_unfold.
  assert (Handle_tasks force (opened s) = (Returned [], opened s)) as ->.
  { unfold Handle_tasks, call_FilterTasks, gets, BaseEvent_FilterTasks.
    destruct force; [|destruct Hc as [?| ->]; [done|]]; simpl;
      unfold as_list; by rewrite Hempty, elements_empty. }
  done.
Qed.

End HandleMore.

(** ** Tasks without hosts, over a whole call *)

Section HandleSkips.

Context {ext : Externals} {contract : TaskContract} {cls : EventClass}.

Variable scheduler : Scheduler.
Variable branch_builds : branch_builds_t.
Variable board : string.
Variable force : bool.
Variable launch_control_builds : option (list string).

Local Abbreviation body := (Handle_body scheduler branch_builds board force
                              launch_control_builds).
Local Abbreviation loop := (Handle_loop scheduler branch_builds board force
                              launch_control_builds).

Local Abbreviation skipped := (skipped scheduler board).

Lemma skipped_app (t : Task) (n1 n2 : list call) :
  skipped t n1 → skipped t n2 → skipped t (n1 ++ n2).
Proof.
  intros H1 H2 Hh.
  destruct H1 as [Hr1 Hq1]; [intros ??? Hin; eapply Hh, elem_of_app; eauto|].
  destruct H2 as [Hr2 Hq2]; [intros ??? Hin; eapply Hh, elem_of_app; eauto|].
  split.
  - unfold runs in *. rewrite omap_app, elem_of_app. tauto.
  - intros Hs c [Hc|Hc]%elem_of_app Ha.
    + apply Hq1; [|done..]. intros o Hin. eapply Hs, elem_of_app; eauto.
    + apply Hq2; [|done..]. intros o Hin. eapply Hs, elem_of_app; eauto.
Qed.

Lemma skipped_silent (t : Task) (c : call) :
  about c = None → skipped t [c].
Proof.
  intros Hc _. split.
  - simpl. destruct c; try done; apply not_elem_of_nil.
  - intros _ c' ->%list_elem_of_singleton. by rewrite Hc.
Qed.

(** A task that had hosts: the stretch is about another task. *)
Lemma skipped_run (t u : Task) (mv : ManifestVersions) (ro : outcome bool) :
  skipped t [CallAvailableHosts u scheduler board (Returned true);
             CallRun u scheduler branch_builds board force mv
                     launch_control_builds ro].
Proof.
  intros Hh.
  assert (u ≠ t) as Hne.
  { intros ->. by specialize (Hh _ _ _ (list_elem_of_here _ _)). }
  split.
  - simpl. rewrite list_elem_of_singleton. congruence.
  - intros _ c Hc Ha. rewrite !elem_of_cons, elem_of_nil in Hc.
    destruct Hc as [->|[->|[]]]; simpl in Ha; congruence.
Qed.

(** A task that had none. *)
Lemma skipped_no_hosts (t u : Task) (so : outcome bool) (tail : list call) :
  tail = [] ∨ (so = Returned true ∧ tail = [LogWarning u board]) →
  skipped t (CallAvailableHosts u scheduler board (Returned false)
             :: CallShouldHaveAvailableHosts u so :: tail).
Proof.
  intros Htail Hh. split.
  - destruct Htail as [->|[_ ->]]; simpl; apply not_elem_of_nil.
  - intros Hs c Hc Ha.
    assert (u = t → so = Returned false) as Hso.
    { intros ->. apply Hs. right. left. }
    rewrite !elem_of_cons in Hc.
    destruct Hc as [->|[->|Hc]]; simpl in Ha.
    + injection Ha as ->. by left.
    + injection Ha as ->. right. by rewrite Hso.
    + destruct Htail as [->|[-> ->]]; [by apply elem_of_nil in Hc|].
      apply list_elem_of_singleton in Hc as ->. simpl in Ha.
      injection Ha as ->. by specialize (Hso eq_refl).
Qed.

(** A task whose host check raised. *)
Lemma skipped_check_raised (t u : Task) (e : exn) :
  skipped t [CallAvailableHosts u scheduler board (Raised e)].
Proof.
  intros Hh. split; [simpl; apply not_elem_of_nil|].
  intros _ c ->%list_elem_of_singleton Ha. simpl in Ha. injection Ha as ->.
  by specialize (Hh _ _ _ (list_elem_of_here _ _)).
Qed.

Lemma evictions_runs (t : Task) (cs : list call) :
  t ∈ evictions cs → t ∈ runs cs.
Proof.
  unfold evictions, runs.
  rewrite elem_of_list_to_set, !list_elem_of_omap.
  intros (c & Hc & Hev). exists c. split; [done|].
  destruct c; try done. simpl in Hev. by destruct r as [[]|].
Qed.

Lemma Handle_body_skipped (t u : Task) (s s' : state) (r : outcome unit) :
  body u s = (r, s') →
  ∃ new, calls s' = calls s ++ new ∧ skipped t new.
Proof.
  unfold Handle_body, bind, external, gets, tasks_remove, log, ret.
  destruct (AvailableHosts u scheduler board (world s)) as [[[]|e] w]; simpl.
  - destruct (Run _ _ _ _ _ _ _ w) as [[[]|e] w2]; simpl;
      try case_decide; intros [= <- <-]; eexists;
      (split; [by rewrite <- ?app_assoc|]); apply skipped_run.
  - destruct (ShouldHaveAvailableHosts u w) as [[[]|e] w2]; simpl;
      intros [= <- <-]; eexists;
      (split; [by rewrite <- ?app_assoc|]); apply skipped_no_hosts; auto.
  - intros [= <- <-]. eexists. split; [done|]. apply skipped_check_raised.
Qed.

Lemma Handle_loop_skipped (t : Task) (l : list Task) (s s' : state)
    (r : outcome unit) :
  loop l s = (r, s') →
  ∃ new, calls s' = calls s ++ new ∧ skipped t new.
Proof.
  revert s. induction l as [|u l IH]; intros s; simpl.
  - intros [= <- <-]. exists []. split; [by rewrite app_nil_r|].
    intros _. split; [apply not_elem_of_nil|].
    intros _ c Hc. by apply elem_of_nil in Hc.
  - unfold bind. destruct (body u s) as [[[]|e] s1] eqn:Hb;
      destruct (Handle_body_skipped t _ _ _ _ Hb) as (n1 & Hc1 & Hk1).
    + intros (n2 & Hc2 & Hk2)%IH. exists (n1 ++ n2).
      split; [by rewrite Hc2, Hc1, app_assoc|]. by apply skipped_app.
    + intros [= <- <-]. by exists n1.
Qed.


End HandleSkips.

(** ** More on [_LatestLaunchControlBuilds] *)

Section LatestMore.

Context {ext : Externals} {contract : TaskContract}
        {build_server : AndroidBuildServer} {utils : Utils}.

Lemma translate_targets_failure (d : DevServer) (branch : string)
    (ts acc : list string) (s s' : state) (e : exn) :
  translate_targets d branch ts acc s = (Raised e, s') →
  self s' = self s ∧
  ∃ build, last (calls s') = Some (CallTranslate d build (Raised e)).
Proof.
  revert acc s. induction ts as [|t ts IH]; intros acc s; [done|].
  rewrite translate_targets_cons. unfold bind, external.
  destruct (translate d _ (world s)) as [[b|e0] w].
  - by intros [Hs Hl]%IH.
  - intros [= <- <-]. split; [done|]. eexists. apply last_snoc.
Qed.

Lemma translate_branches_failure (board : string) (d : DevServer)
    (items : list (string * list string)) (acc : list string)
    (s s' : state) (e : exn) :
  translate_branches board d items acc s = (Raised e, s') →
  self s' = self s ∧
  ∃ build, last (calls s') = Some (CallTranslate d build (Raised e)).
Proof.
  revert acc s. induction items as [|[branch targets] items IH];
    intros acc s; simpl; [done|].
  unfold bind at 1.
  destruct (translate_targets _ _ _ _ s) as [[b1|e0] s1] eqn:Ht.
  - apply translate_targets_effect in Ht as (n1 & i1 & _ & Hs1 & _).
    intros [Hs Hl]%IH. by rewrite Hs, Hs1.
  - intros [= <- <-]. by apply translate_targets_failure in Ht.
Qed.

(** The lookup raises only what a devserver call raised: the exception is
    that of the last call on record, which is the choice of a devserver or a
    query to it.  The event is untouched and no build is returned. *)
Theorem latest_builds_failure_origin (board : string) (s s' : state)
    (e : exn) :
  _LatestLaunchControlBuilds board s = (Raised e, s') →
  self s' = self s ∧
  (last (calls s') = Some (CallRandom (Raised e)) ∨
   ∃ d build, last (calls s') = Some (CallTranslate d build (Raised e))).
Proof.
  unfold _LatestLaunchControlBuilds, bind, external, gets.
  destruct (random (world s)) as [[d|e0] w]; simpl.
  - intros [Hs [build Hl]]%translate_branches_failure. eauto.
  - intros [= <- <-]. split; [done|]. left. apply last_snoc.
Qed.

Lemma translate_branches_no_match (board : string) (d : DevServer)
    (items : list (string * list string)) (acc : list string) (s : state) :
  ('(branch, targets) ← items;
   (λ t, branch +:+ "/" +:+ t +:+ "/LATEST")
     <$> filter (λ t, Some board = (parse_launch_control_target t).1)
                targets) = [] →
  translate_branches board d items acc s = (Returned acc, s).
Proof.
  revert s. induction items as [|[branch targets] items IH]; intros s;
    [done|].
  cbn [mbind list_bind]. intros [Hhd Htl]%app_eq_nil.
  apply fmap_nil_inv in Hhd. cbn [translate_branches].
  rewrite Hhd. unfold bind. simpl. by apply IH.
Qed.

(** When no target of the view is for the translated board, and so for an
    event without tasks, the lookup picks a devserver, asks it nothing and
    returns the empty list. *)
Theorem latest_builds_no_match (board : string) (s : state) (d : DevServer)
    (w : World) :
  random (world s) = (Returned d, w) →
  spec_latest_queries (default board (ANDROID_BOARD_TO_TARGET_MAP !! board))
                      (self s) = [] →
  _LatestLaunchControlBuilds board s
  = (Returned [],
     {| self := self s; world := w;
        calls := calls s ++ [CallRandom (Returned d)] |}).
Proof.
  intros Hr Hq. unfold _LatestLaunchControlBuilds, bind, external, gets.
  rewrite Hr. simpl. by apply translate_branches_no_match.
Qed.

End LatestMore.

(** * The properties at work in the lab *)

(** Two one-shot tasks: both are removed, so the removal of one is not the
    only change to the set.  C1 as stated fails. *)
Lemma evicted_alone_fails :
  ¬ @evicted_alone Lab.externals Lab.contract Lab.base_class
      tt ∅ "shamu" true None (Lab.start [1; 2]).
Proof.
  intros Hclaim.
  destruct (Hclaim (Lab.handle Lab.base_class true [1; 2]).2 1) as [_ Hframe].
  - vm_compute. reflexivity.
  - vm_compute. reflexivity.
  - assert (2 ∈ tasks (self (Lab.handle Lab.base_class true [1; 2]).2)) as Hin.
    { apply Hframe; [done|]. vm_compute. reflexivity. }
    vm_compute in Hin. discriminate Hin.
Qed.

(** Tasks 1 and 2 go, task 0 stays. *)
Lemma Handle_removes_one_shot_tasks_lab :
  (1 ∉ tasks (self (Lab.handle Lab.base_class true [0; 1; 2]).2)) ∧
  ∀ u, u ∈ tasks (self (Lab.start [0; 1; 2])) →
       u ∉ evictions (drop (length (calls (Lab.start [0; 1; 2])))
                           (calls (Lab.handle Lab.base_class true [0; 1; 2]).2)) →
       u ∈ tasks (self (Lab.handle Lab.base_class true [0; 1; 2]).2).
Proof.
  apply (@Handle_removes_one_shot_tasks Lab.externals Lab.contract
           tt ∅ "shamu" None Lab.base_class true).
  - vm_compute. reflexivity.
  - vm_compute. reflexivity.
Defined.

(** Task 3 fails after task 2 has run; task 0, which comes after it, is
    never looked at. *)
Lemma Handle_Run_failure_propagates_lab :
  Lab.handle Lab.base_class true [0; 3; 2]
  = (Raised (External "RPC failure"),
     {| self := self (Lab.loop true [2] (Lab.opened [0; 3; 2])).2;
        world := 1;
        calls := calls (Lab.loop true [2] (Lab.opened [0; 3; 2])).2 ++
          [@CallAvailableHosts Lab.externals 3 tt "shamu" (Returned true);
           @CallRun Lab.externals 3 tt ∅ "shamu" true tt None
                   (Raised (External "RPC failure"))] |}).
Proof.
  apply (@Handle_Run_failure_propagates Lab.externals Lab.contract
           tt ∅ "shamu" None Lab.base_class true [2] [0] 3
           (External "RPC failure") (Lab.start [0; 3; 2]) (Lab.opened [0; 3; 2])
           (Lab.loop true [2] (Lab.opened [0; 3; 2])).2 1 1).
  - vm_compute. reflexivity.
  - vm_compute. reflexivity.
  - vm_compute. reflexivity.
  - vm_compute. reflexivity.
Defined.


(** Task 11 has no hosts and needs none: after the host check and the
    question, the loop moves on to tasks 1 and 0. *)
Lemma Handle_skips_task_without_hosts_lab :
  Lab.loop true ([10; 2] ++ 11 :: [1; 0]) (Lab.opened [0; 1; 2; 10; 11])
  = Lab.loop true [1; 0]
      {| self := self (Lab.loop true [10; 2] (Lab.opened [0; 1; 2; 10; 11])).2;
         world := 1;
         calls := calls (Lab.loop true [10; 2] (Lab.opened [0; 1; 2; 10; 11])).2 ++
           [@CallAvailableHosts Lab.externals 11 tt "shamu" (Returned false);
            @CallShouldHaveAvailableHosts Lab.externals 11 (Returned false)] |}.
Proof.
  apply (@Handle_skips_task_without_hosts Lab.externals Lab.contract
           tt ∅ "shamu" None true [10; 2] [1; 0] 11
           (Lab.opened [0; 1; 2; 10; 11])
           (Lab.loop true [10; 2] (Lab.opened [0; 1; 2; 10; 11])).2
           1 1 (Returned false)).
  - vm_compute. reflexivity.
  - vm_compute. reflexivity.
  - vm_compute. reflexivity.
Defined.

(** The two tasks of branch [git_mnc_release] give two queries and two
    builds. *)
Lemma latest_builds_two_targets_lab :
  Lab.latest [1; 2]
  = (Returned ["resolved:git_mnc_release/shamu-eng/LATEST";
               "resolved:git_mnc_release/shamu-userdebug/LATEST"],
     {| self := self (Lab.start [1; 2]); world := 0;
        calls := calls (Lab.start [1; 2]) ++
          [@CallRandom Lab.externals (Returned 7);
           @CallTranslate Lab.externals 7 "git_mnc_release/shamu-eng/LATEST"
             (Returned "resolved:git_mnc_release/shamu-eng/LATEST");
           @CallTranslate Lab.externals 7 "git_mnc_release/shamu-userdebug/LATEST"
             (Returned "resolved:git_mnc_release/shamu-userdebug/LATEST")] |}) ∧
  @spec_latest_queries Lab.externals Lab.contract Lab.utils "shamu"
     (self (Lab.start [1; 2]))
  = ["git_mnc_release/shamu-eng/LATEST";
     "git_mnc_release/shamu-userdebug/LATEST"].
Proof.
  apply (@latest_builds_two_targets Lab.externals Lab.contract
           Lab.build_server Lab.utils (Lab.start [1; 2]) 7 0 0 0).
  - vm_compute. reflexivity.
  - vm_compute. reflexivity.
  - vm_compute. reflexivity.
  - vm_compute. reflexivity.
  - vm_compute. reflexivity.
  - vm_compute. reflexivity.
  - vm_compute. reflexivity.
Defined.

(** ** The further properties at work in the lab *)

Lemma SectionName_inj_nightly :
  "nightly" = "nightly".
Proof. apply (SectionName_inj "nightly" "nightly"). reflexivity. Defined.

(** Assigning [1; 2; 1] or [2; 1] gives the same event. *)
Lemma set_tasks_same_members_lab :
  @set_tasks Lab.externals (Lab.event []) [1; 2; 1]
  = @set_tasks Lab.externals (Lab.event []) [2; 1].
Proof.
  apply (@set_tasks_same_members Lab.externals (Lab.event []) [1; 2; 1] [2; 1]).
  intros t. rewrite !elem_of_cons. naive_solver.
Defined.

(** After a run that ends in task 3's failure the event is still the
    [nightly] event, with fewer tasks. *)
Lemma Handle_keeps_identity_lab :
  keyword (self (Lab.handle Lab.base_class true [0; 3; 2]).2)
    = keyword (self (Lab.start [0; 3; 2])) ∧
  _mv (self (Lab.handle Lab.base_class true [0; 3; 2]).2)
    = _mv (self (Lab.start [0; 3; 2])) ∧
  ShouldHandle (self (Lab.handle Lab.base_class true [0; 3; 2]).2)
    = ShouldHandle (self (Lab.start [0; 3; 2])) ∧
  tasks (self (Lab.handle Lab.base_class true [0; 3; 2]).2)
    ⊆ tasks (self (Lab.start [0; 3; 2])) ∧
  ∃ rest, calls (Lab.handle Lab.base_class true [0; 3; 2]).2
          = calls (Lab.start [0; 3; 2]) ++
            LogInfo (keyword (self (Lab.start [0; 3; 2]))) "shamu" :: rest.
Proof.
  apply (@Handle_keeps_identity Lab.externals Lab.contract Lab.base_class
           tt ∅ "shamu" true None (Lab.start [0; 3; 2])
           (Lab.handle Lab.base_class true [0; 3; 2]).2
           (Raised (External "RPC failure"))).
  vm_compute. reflexivity.
Defined.

(** With [FilterTasks] narrowing the candidates to none, the one-shot
    task 1 stays. *)
Lemma Handle_spares_non_candidates_lab :
  (1 : @Task Lab.externals)
    ∈ tasks (self (Lab.handle Lab.idle_class false [1; 2]).2).
Proof.
  apply (@Handle_spares_non_candidates Lab.externals Lab.contract
           Lab.idle_class tt ∅ "shamu" false None []
           (Lab.start [1; 2]) (Lab.opened [1; 2])
           (Lab.handle Lab.idle_class false [1; 2]).2 (Returned tt) 1).
  - vm_compute. reflexivity.
  - vm_compute. reflexivity.
  - vm_compute. reflexivity.
  - apply not_elem_of_nil.
Defined.

(** The five tasks are checked in the order of the candidate list; three of
    them are run. *)
Lemma Handle_checks_candidates_in_order_lab :
  host_checks (drop (length (calls (Lab.start [0; 1; 2; 10; 11])))
                    (calls (Lab.handle Lab.base_class true [0; 1; 2; 10; 11]).2))
    `prefix_of` [10; 2; 11; 1; 0] ∧
  runs (drop (length (calls (Lab.start [0; 1; 2; 10; 11])))
             (calls (Lab.handle Lab.base_class true [0; 1; 2; 10; 11]).2))
    `sublist_of`
    host_checks (drop (length (calls (Lab.start [0; 1; 2; 10; 11])))
                      (calls (Lab.handle Lab.base_class true [0; 1; 2; 10; 11]).2)) ∧
  (Returned tt = Returned tt →
   host_checks (drop (length (calls (Lab.start [0; 1; 2; 10; 11])))
                     (calls (Lab.handle Lab.base_class true [0; 1; 2; 10; 11]).2))
   = [10; 2; 11; 1; 0]).
Proof.
  apply (@Handle_checks_candidates_in_order Lab.externals Lab.contract
           Lab.base_class tt ∅ "shamu" true None [10; 2; 11; 1; 0]
           (Lab.start [0; 1; 2; 10; 11]) (Lab.opened [0; 1; 2; 10; 11])
           (Lab.handle Lab.base_class true [0; 1; 2; 10; 11]).2 (Returned tt)).
  - vm_compute. reflexivity.
  - vm_compute. reflexivity.
Defined.

(** A [FilterTasks] that names task 1 twice makes [Handle] end in
    [KeyError], after the second [Run] of the task. *)
Lemma Handle_failure_origin_lab :
  (false = false ∧
   (@FilterTasks _ Lab.stutter_class (self (Lab.start [1])) (world (Lab.start [1]))).1
   = Raised KeyError) ∨
  ∃ c, last (calls (Lab.handle Lab.stutter_class false [1]).2) = Some c ∧
       (raised c = Some KeyError ∨
        (KeyError = KeyError ∧
         ∃ t, evicted c = Some t ∧
              t ∉ tasks (self (Lab.handle Lab.stutter_class false [1]).2))).
Proof.
  apply (@Handle_failure_origin Lab.externals Lab.contract Lab.stutter_class
           tt ∅ "shamu" false None (Lab.start [1])).
  vm_compute. reflexivity.
Defined.

(** Task 1 listed twice: the second removal fails. *)
Lemma Handle_remove_absent_task_lab :
  Lab.loop false ([1] ++ 1 :: [0]) (Lab.opened [0; 1])
  = (Raised KeyError,
     {| self := self (Lab.loop false [1] (Lab.opened [0; 1])).2;
        world := 2;
        calls := calls (Lab.loop false [1] (Lab.opened [0; 1])).2 ++
          [@CallAvailableHosts Lab.externals 1 tt "shamu" (Returned true);
           @CallRun Lab.externals 1 tt ∅ "shamu" false tt None
                    (Returned false)] |}).
Proof.
  apply (@Handle_remove_absent_task Lab.externals Lab.contract
           tt ∅ "shamu" false None [1] [0] 1 (Lab.opened [0; 1])
           (Lab.loop false [1] (Lab.opened [0; 1])).2 1 2).
  - vm_compute. reflexivity.
  - vm_compute. intros [=].
  - vm_compute. reflexivity.
  - vm_compute. reflexivity.
Defined.

Lemma Handle_no_tasks_lab :
  Lab.handle Lab.base_class false []
  = (Returned tt,
     {| self := self (Lab.start []); world := world (Lab.start []);
        calls := calls (Lab.start []) ++
                 [LogInfo (keyword (self (Lab.start []))) "shamu"] |}).
Proof.
  apply (@Handle_no_tasks Lab.externals Lab.contract Lab.base_class
           tt ∅ "shamu" false None (Lab.start [])).
  - vm_compute. reflexivity.
  - right. reflexivity.
Defined.

(** In the calm lab a forced [Handle] returns. *)
Lemma Handle_returns_lab :
  ∃ s', @Handle Lab.externals Lab.calm_contract Lab.base_class
          tt ∅ "shamu" true None (Lab.start [0; 1; 2; 3; 10; 11])
        = (Returned tt, s').
Proof.
  apply (@Handle_returns Lab.externals Lab.calm_contract tt ∅ "shamu" None
           Lab.base_class true (Lab.start [0; 1; 2; 3; 10; 11])).
  - intros t w. eexists _, _. reflexivity.
  - intros t w. eexists _, _. reflexivity.
  - intros t mv w. eexists _, _. reflexivity.
  - left. reflexivity.
Defined.

(** Tasks 2 and 1, visited in this order, share the branch: its targets are
    those of task 2 followed by those of task 1. *)
Lemma view_of_two_tasks_lab :
  @launch_control_branches_targets Lab.externals Lab.contract (Lab.event [1; 2])
  = {[ "git_mnc_release" :=
         @launch_control_targets _ Lab.contract 2
         ++ @launch_control_targets _ Lab.contract 1 ]}.
Proof.
  apply (@view_of_two_tasks Lab.externals Lab.contract (Lab.event [1; 2]) 2 1
           "git_mnc_release").
  - vm_compute. reflexivity.
  - reflexivity.
  - reflexivity.
Defined.

Lemma latest_builds_query_law_lab :
  self (Lab.latest [1; 2]).2 = self (Lab.start [1; 2]) ∧
  queries (drop (length (calls (Lab.start [1; 2]))) (calls (Lab.latest [1; 2]).2))
    ≡ₚ @spec_latest_queries Lab.externals Lab.contract Lab.utils
         (default "shamu" (@ANDROID_BOARD_TO_TARGET_MAP Lab.utils !! "shamu"))
         (self (Lab.start [1; 2])) ∧
  (∀ branch targets,
     @launch_control_branches_targets Lab.externals Lab.contract
       (self (Lab.start [1; 2])) !! branch = Some targets →
     ((λ t, branch +:+ "/" +:+ t +:+ "/LATEST")
        <$> filter (λ t, Some (default "shamu"
                                 (@ANDROID_BOARD_TO_TARGET_MAP Lab.utils !! "shamu"))
                         = (@parse_launch_control_target Lab.utils t).1) targets)
     `sublist_of` queries (drop (length (calls (Lab.start [1; 2])))
                                (calls (Lab.latest [1; 2]).2))) ∧
  length ["resolved:git_mnc_release/shamu-eng/LATEST";
          "resolved:git_mnc_release/shamu-userdebug/LATEST"]
  = length (queries (drop (length (calls (Lab.start [1; 2])))
                          (calls (Lab.latest [1; 2]).2))).
Proof.
  apply (@latest_builds_query_law Lab.externals Lab.contract Lab.build_server
           Lab.utils "shamu").
  vm_compute. reflexivity.
Defined.

(** With unreachable devservers the lookup fails at its first query. *)
Lemma latest_builds_failure_origin_lab :
  self (@_LatestLaunchControlBuilds Lab.externals Lab.contract
          Lab.broken_server Lab.utils "shamu" (Lab.start [1; 2])).2
  = self (Lab.start [1; 2]) ∧
  (last (calls (@_LatestLaunchControlBuilds Lab.externals Lab.contract
                  Lab.broken_server Lab.utils "shamu" (Lab.start [1; 2])).2)
   = Some (CallRandom (Raised (External "unreachable"))) ∨
   ∃ d build,
     last (calls (@_LatestLaunchControlBuilds Lab.externals Lab.contract
                    Lab.broken_server Lab.utils "shamu" (Lab.start [1; 2])).2)
     = Some (CallTranslate d build (Raised (External "unreachable")))).
Proof.
  apply (@latest_builds_failure_origin Lab.externals Lab.contract
           Lab.broken_server Lab.utils "shamu" (Lab.start [1; 2])).
  vm_compute. reflexivity.
Defined.

(** Task 0 follows no branch: nothing to ask. *)
Lemma latest_builds_no_match_lab :
  Lab.latest [0]
  = (Returned [],
     {| self := self (Lab.start [0]); world := 0;
        calls := calls (Lab.start [0]) ++
                 [@CallRandom Lab.externals (Returned 7)] |}).
Proof.
  apply (@latest_builds_no_match Lab.externals Lab.contract Lab.build_server
           Lab.utils "shamu" (Lab.start [0]) 7 0).
  - vm_compute. reflexivity.
  - vm_compute. reflexivity.
Defined.
